(** * type_safe: bounded_type.hpp

    A shallow embedding of [include/type_safe/bounded_type.hpp]: the four
    bound predicates generated by [TYPE_SAFE_DETAIL_MAKE], the [bounded]
    interval constraint, [clamp], [clamping_verifier] and the factory
    layer, together with the build-time checks ([static_assert],
    [std::enable_if]) that guard them.

    Templates are modelled in two layers.  What the compiler decides from
    types alone lives in the [build] monad: a template instantiation either
    is [Built] or is [Rejected] with the diagnostic the compiler would give.
    What happens at run time lives in the [Eval] monad, which records every
    call of a user-supplied comparison operator and every assignment through
    a reference parameter. *)

From Stdlib Require Import ZArith List String Bool Lia.
Import ListNotations.

Set Implicit Arguments.

(** ** Monads used by the embedding *)

Class Monad (M : Type -> Type) : Type := {
  ret : forall {A}, A -> M A;
  bind : forall {A B}, M A -> (A -> M B) -> M B
}.

Notation "x <- c ;; k" := (bind c (fun x => k))
  (at level 61, c at next level, right associativity).
Notation "c ;; k" := (bind c (fun _ => k))
  (at level 61, right associativity).

(** ** C++ types, as far as the header inspects them *)

Module Cxx.

Inductive fundamental : Type :=
| t_bool | t_char | t_short | t_int | t_unsigned | t_long
| t_float | t_double.

(** Type expressions.  Function types are left out: none of the entities
    of the header is instantiated with one.  One type has several
    spellings here (a qualifier written on an array or on a reference, the
    two orders of [const volatile], a reference to a reference);
    [normalize] picks one of them, and [is_same] and [decay] work on it. *)
Inductive ctype : Type :=
| Fund (f : fundamental)
| Class_ (name : string)
| Const (t : ctype)
| Volatile (t : ctype)
| Pointer (t : ctype)
| Array (t : ctype) (n : nat)
| LRef (t : ctype)
| RRef (t : ctype).

Definition fundamental_eq_dec (a b : fundamental) : {a = b} + {a <> b}.
Proof. decide equality. Defined.

Definition ctype_eq_dec (a b : ctype) : {a = b} + {a <> b}.
Proof.
  decide equality.
  - apply fundamental_eq_dec.
  - apply string_dec.
  - apply Nat.eq_dec.
Defined.

(** [const t] for a normalized [t]: a reference takes no qualifier, an array
    passes it to its elements, and [const] is written once, outside
    [volatile]. *)
Fixpoint add_const (t : ctype) : ctype :=
  match t with
  | LRef _ => t
  | RRef _ => t
  | Array e n => Array (add_const e) n
  | Const _ => t
  | _ => Const t
  end.

(** [volatile t] for a normalized [t]. *)
Fixpoint add_volatile (t : ctype) : ctype :=
  match t with
  | LRef _ => t
  | RRef _ => t
  | Array e n => Array (add_volatile e) n
  | Const u =>
      Const (match u with
             | Volatile _ => u
             | _ => Volatile u
             end)
  | Volatile _ => t
  | _ => Volatile t
  end.

(** [t&] for a normalized [t], with reference collapsing. *)
Definition add_lvalue_reference (t : ctype) : ctype :=
  match t with
  | LRef u => LRef u
  | RRef u => LRef u
  | _ => LRef t
  end.

(** [t&&] for a normalized [t], with reference collapsing. *)
Definition add_rvalue_reference (t : ctype) : ctype :=
  match t with
  | LRef u => LRef u
  | RRef u => RRef u
  | _ => RRef t
  end.

(** The spelling chosen for a type. *)
Fixpoint normalize (t : ctype) : ctype :=
  match t with
  | Fund f => Fund f
  | Class_ n => Class_ n
  | Const u => add_const (normalize u)
  | Volatile u => add_volatile (normalize u)
  | Pointer u => Pointer (normalize u)
  | Array u n => Array (normalize u) n
  | LRef u => add_lvalue_reference (normalize u)
  | RRef u => add_rvalue_reference (normalize u)
  end.

Definition is_reference (t : ctype) : bool :=
  match t with
  | LRef _ => true
  | RRef _ => true
  | _ => false
  end.

(** The spellings [normalize] produces. *)
Fixpoint normal (t : ctype) : bool :=
  match t with
  | Fund _ => true
  | Class_ _ => true
  | Pointer u => normal u
  | Array u _ => normal u
  | LRef u => normal u && negb (is_reference u)
  | RRef u => normal u && negb (is_reference u)
  | Const u =>
      normal u && match u with
                  | Const _ | LRef _ | RRef _ | Array _ _ => false
                  | _ => true
                  end
  | Volatile u =>
      normal u && match u with
                  | Const _ | Volatile _ | LRef _ | RRef _ | Array _ _ => false
                  | _ => true
                  end
  end.

(** [std::is_same<A, B>::value] *)
Definition is_same (a b : ctype) : bool :=
  if ctype_eq_dec (normalize a) (normalize b) then true else false.

(** [std::remove_reference], on a normalized type. *)
Definition remove_reference (t : ctype) : ctype :=
  match t with
  | LRef u => u
  | RRef u => u
  | _ => t
  end.

(** [std::remove_cv]: strips the top-level qualifiers. *)
Fixpoint remove_cv (t : ctype) : ctype :=
  match t with
  | Const u => remove_cv u
  | Volatile u => remove_cv u
  | _ => t
  end.

(** [std::decay]: drop the reference, turn an array into a pointer to its
    element, otherwise drop the top-level cv-qualifiers. *)
Definition decay (t : ctype) : ctype :=
  match remove_reference (normalize t) with
  | Array e _ => Pointer e
  | u => remove_cv u
  end.

(** Is the type, a normalized one that is no reference, [volatile] at top
    level? *)
Definition is_volatile (t : ctype) : bool :=
  match t with
  | Volatile _ => true
  | Const (Volatile _) => true
  | _ => false
  end.

(** Is the type, a normalized one that is no reference, [const] at top
    level? *)
Definition is_const (t : ctype) : bool :=
  match t with
  | Const _ => true
  | _ => false
  end.

Definition is_lvalue_reference (t : ctype) : bool :=
  match t with
  | LRef _ => true
  | _ => false
  end.

(** What the compiler reports when it refuses a construct. *)
Inductive diagnostic : Type :=
| static_assert_failed (message : string)
| substitution_failure (missing : string).

(** Outcome of instantiating a template or resolving a call. *)
Inductive build (A : Type) : Type :=
| Built (a : A)
| Rejected (d : diagnostic).

Arguments Rejected {A} d.

#[export] Instance build_Monad : Monad build := {
  ret := fun A a => Built a;
  bind := fun A B c k =>
    match c with
    | Built a => k a
    | Rejected d => Rejected d
    end
}.

Definition fmap {A B} (f : A -> B) (c : build A) : build B :=
  match c with
  | Built a => Built (f a)
  | Rejected d => Rejected d
  end.

Definition is_built {A} (c : build A) : bool :=
  match c with
  | Built _ => true
  | Rejected _ => false
  end.

(** [static_assert(cond, message)] *)
Definition static_assert (cond : bool) (message : string) : build unit :=
  if cond then Built tt else Rejected (static_assert_failed message).

(** [typename std::enable_if<cond>::type]: when [cond] is false the
    member [type] is missing and the substitution fails. *)
Definition enable_if (cond : bool) : build unit :=
  if cond then Built tt else Rejected (substitution_failure "type").

(** Does the diagnostic quote the given [static_assert] message? *)
Definition names (message : string) (d : diagnostic) : bool :=
  match d with
  | static_assert_failed m => String.eqb m message
  | substitution_failure _ => false
  end.

End Cxx.
Import Cxx.

(** ** Comparison operators and conversions supplied by the value types *)

(** The second parameter of [TYPE_SAFE_DETAIL_MAKE(Name, Op)]. *)
Inductive Op : Type :=
| Op_lt   (* <  *)
| Op_le   (* <= *)
| Op_gt   (* >  *)
| Op_ge.  (* >= *)

(** [u Op t] for a [const U& u] and a [const T& t]: the four operators the
    header applies.  Nothing relates them to one another unless
    [OrderLaws] is assumed as well. *)
Class Comparable (U T : Type) : Type := {
  less_than : U -> T -> bool;
  less_than_or_equal : U -> T -> bool;
  greater_than : U -> T -> bool;
  greater_than_or_equal : U -> T -> bool
}.

Definition apply_Op {U T} `{Comparable U T} (o : Op) : U -> T -> bool :=
  match o with
  | Op_lt => less_than
  | Op_le => less_than_or_equal
  | Op_gt => greater_than
  | Op_ge => greater_than_or_equal
  end.

(** [static_cast<U>(t)] for a [const T& t]. *)
Class StaticCast (T U : Type) : Type := {
  static_cast : T -> U
}.

(** The operators of one type form a total preorder, and [<], [>], [>=] are
    the readings of [<=] one expects. *)
Class OrderLaws {T : Type} (C : Comparable T T) : Prop := {
  le_total : forall a b : T,
    less_than_or_equal a b = false -> less_than_or_equal b a = true;
  le_trans : forall a b c : T,
    less_than_or_equal a b = true -> less_than_or_equal b c = true ->
    less_than_or_equal a c = true;
  lt_le : forall a b : T, less_than a b = negb (less_than_or_equal b a);
  gt_le : forall a b : T, greater_than a b = negb (less_than_or_equal a b);
  ge_le : forall a b : T, greater_than_or_equal a b = less_than_or_equal b a
}.

(** ** Run-time effects *)

(** What a call can be observed to do: evaluate one comparison operator, or
    assign through its reference parameter [val]. *)
Inductive event (U T : Type) : Type :=
| Compared (o : Op) (u : U) (t : T)
| Assigned (u : U).

Arguments Assigned {U T} u.

(** A computation yields its result and the events it performed, oldest
    first. *)
Definition Eval (U T A : Type) : Type := (A * list (event U T))%type.

#[export] Instance Eval_Monad (U T : Type) : Monad (Eval U T) := {
  ret := fun A a => (a, []);
  bind := fun A B c k => let (a, l) := c in let (b, l') := k a in (b, l ++ l')
}.

Definition result {U T A} (c : Eval U T A) : A := fst c.
Definition trace {U T A} (c : Eval U T A) : list (event U T) := snd c.

Definition is_assignment {U T} (e : event U T) : bool :=
  match e with
  | Assigned _ => true
  | Compared _ _ _ => false
  end.

Definition is_comparison {U T} (e : event U T) : bool :=
  negb (is_assignment e).

(** Number of assignments to [val] a computation performed. *)
Definition assignments {U T A} (c : Eval U T A) : nat :=
  List.length (List.filter is_assignment (trace c)).

(** Number of comparison operators a computation evaluated. *)
Definition comparisons {U T A} (c : Eval U T A) : nat :=
  List.length (List.filter is_comparison (trace c)).

(** [u Op t] *)
Definition evaluate {U T} `{Comparable U T} (o : Op) (u : U) (t : T)
  : Eval U T bool :=
  (apply_Op o u t, [Compared o u t]).

(** [val = v]; the result is the new content of [val]. *)
Definition assign {U T} (v : U) : Eval U T U := (v, [Assigned v]).

(** Built-in [a && b]: [b] is evaluated only when [a] yields [true]. *)
Definition and_then {U T} (a b : Eval U T bool) : Eval U T bool :=
  x <- a ;; if x then b else ret false.

(** ** namespace constraints *)

Section Constraints.

(** The values of the template parameter [T]. *)
Context {T : Type}.

(** The template parameter [BoundConstant]: either [dynamic_bound] or a
    constant type with a nested [value_type] and [value].  The nested value
    is taken in [T], the type [get_bound] returns it in. *)
Inductive BoundConstant : Type :=
| dynamic_bound
| constant (value_type : ctype) (value : T).

(** [detail::Wrapper<T>] *)
Record Wrapper : Type := { Wrapper_value : T }.

(** [detail::is_dynamic<BoundConstant>::value] *)
Definition is_dynamic (BC : BoundConstant) : bool :=
  match BC with
  | dynamic_bound => true
  | constant _ _ => false
  end.

(** [detail::Base<T, BoundConstant>]: [Wrapper<T>] for a dynamic bound,
    otherwise the constant type itself, an object without data members. *)
Definition Base (BC : BoundConstant) : Type :=
  if is_dynamic BC then Wrapper else unit.

(** [Base::value]: the data member of the wrapper, or the static member of
    the constant type. *)
Definition Base_value (BC : BoundConstant) : Base BC -> T :=
  match BC return Base BC -> T with
  | dynamic_bound => fun w => Wrapper_value w
  | constant _ k => fun _ => k
  end.

(** The class template generated by [TYPE_SAFE_DETAIL_MAKE(Name, Op)]; its
    only state is the base sub-object. *)
Record Name (op : Op) (BC : BoundConstant) : Type := { base : Base BC }.

Definition less : BoundConstant -> Type := Name Op_lt.
Definition less_equal : BoundConstant -> Type := Name Op_le.
Definition greater : BoundConstant -> Type := Name Op_gt.
Definition greater_equal : BoundConstant -> Type := Name Op_ge.

(** [explicit Name() { static_assert(!is_dynamic, ...); }].  The match
    builds the object in the only case the assertion lets through. *)
Definition Name_default (op : Op) (BC : BoundConstant) : build (Name op BC) :=
  static_assert (negb (is_dynamic BC)) "constructor requires static bound" ;;
  match BC return build (Name op BC) with
  | constant vt k => Built (Build_Name op (constant vt k) tt)
  | dynamic_bound =>
      Rejected (static_assert_failed "constructor requires static bound")
  end.

(** [explicit Name(const T& bound) : Base{bound}
    { static_assert(is_dynamic, ...); }] *)
Definition Name_copy (op : Op) (BC : BoundConstant) (bound : T)
  : build (Name op BC) :=
  static_assert (is_dynamic BC) "constructor requires dynamic bound" ;;
  match BC return build (Name op BC) with
  | dynamic_bound =>
      Built (Build_Name op dynamic_bound {| Wrapper_value := bound |})
  | constant _ _ =>
      Rejected (static_assert_failed "constructor requires dynamic bound")
  end.

(** [explicit Name(T&& bound) : Base{std::move(bound)}
    { static_assert(is_dynamic, ...); }] *)
Definition Name_move (op : Op) (BC : BoundConstant) (bound : T)
  : build (Name op BC) :=
  static_assert (is_dynamic BC) "constructor requires dynamic bound" ;;
  match BC return build (Name op BC) with
  | dynamic_bound =>
      Built (Build_Name op dynamic_bound {| Wrapper_value := bound |})
  | constant _ _ =>
      Rejected (static_assert_failed "constructor requires dynamic bound")
  end.

(** [const T& get_bound() const noexcept { return Base::value; }] *)
Definition get_bound {op BC} (p : Name op BC) : T :=
  Base_value BC (base p).

(** [template <typename U> bool operator()(const U& u) const
    { return u Op get_bound(); }] *)
Definition Name_call {U} `{Comparable U T} {op BC} (p : Name op BC) (u : U)
  : Eval U T bool :=
  evaluate op u (get_bound p).

(** [detail::upper_bound_t]: [less_equal] when inclusive, else [less]. *)
Definition upper_bound_t (Inclusive : bool) (BC : BoundConstant) : Type :=
  Name (if Inclusive then Op_le else Op_lt) BC.

(** [detail::lower_bound_t]: [greater_equal] when inclusive, else
    [greater]. *)
Definition lower_bound_t (Inclusive : bool) (BC : BoundConstant) : Type :=
  Name (if Inclusive then Op_ge else Op_gt) BC.

Definition open : bool := false.
Definition closed : bool := true.

(** [class bounded : lower_bound_t<...>, upper_bound_t<...>]: the two base
    sub-objects, reached through [lower()] and [upper()]. *)
Record bounded (LowerInclusive UpperInclusive : bool)
               (LowerConstant UpperConstant : BoundConstant) : Type := {
  lower : lower_bound_t LowerInclusive LowerConstant;
  upper : upper_bound_t UpperInclusive UpperConstant
}.

(** The assertion at class scope: it is evaluated when [bounded<...>] is
    instantiated, before any member is looked at. *)
Definition bounded_class (LowerConstant UpperConstant : BoundConstant)
  : build unit :=
  static_assert (Bool.eqb (is_dynamic LowerConstant) (is_dynamic UpperConstant))
                "mixed static and dynamic bounds is unsupported".

(** [decay_same<U>], inside [bounded<T, ...>] where [T] is written [Tn]. *)
Definition decay_same (Tn U : ctype) : bool := is_same (decay U) Tn.

(** [typename LC::value_type]; [dynamic_bound] has no such member. *)
Definition value_type_of (BC : BoundConstant) : build ctype :=
  match BC with
  | dynamic_bound => Rejected (substitution_failure "value_type")
  | constant vt _ => Built vt
  end.

(** [bounded()] *)
Definition bounded_default (Tn : ctype) (LI UI : bool) (LC UC : BoundConstant)
  : build (bounded LI UI LC UC) :=
  bounded_class LC UC ;;
  lvt <- value_type_of LC ;;
  enable_if (decay_same Tn lvt) ;;
  uvt <- value_type_of UC ;;
  enable_if (decay_same Tn uvt) ;;
  l <- Name_default _ LC ;;
  u <- Name_default _ UC ;;
  static_assert (negb (is_dynamic LC) && negb (is_dynamic UC))
                "constructor requires static bounds" ;;
  ret {| lower := l; upper := u |}.

(** Can an argument whose type was deduced as [U] initialise the parameter
    of [Name(const T&)] or of [Name(T&&)]?  A [volatile] lvalue or xvalue
    binds to neither reference; an array is first converted to a pointer,
    which binds. *)
Definition bindable (U : ctype) : bool :=
  negb (is_volatile (remove_reference (normalize U))).

(** [Lower(std::forward<U>(bound))]: an lvalue or a [const] argument
    selects [Name(const T&)], any other [Name(T&&)].  The argument is taken
    to be [bindable]. *)
Definition Name_forward (op : Op) (BC : BoundConstant) (U : ctype) (bound : T)
  : build (Name op BC) :=
  if is_lvalue_reference (normalize U)
     || is_const (remove_reference (normalize U))
  then Name_copy op BC bound
  else Name_move op BC bound.

(** [bounded(U1&& lower, U2&& upper)] *)
Definition bounded_ctor (Tn : ctype) (LI UI : bool) (LC UC : BoundConstant)
    (U1 U2 : ctype) (lower_arg upper_arg : T) : build (bounded LI UI LC UC) :=
  bounded_class LC UC ;;
  enable_if (decay_same Tn U1) ;;
  enable_if (decay_same Tn U2) ;;
  l <- Name_forward _ LC U1 lower_arg ;;
  u <- Name_forward _ UC U2 upper_arg ;;
  static_assert (is_dynamic UC && is_dynamic LC)
                "constructor requires dynamic bounds" ;;
  ret {| lower := l; upper := u |}.

(** [bool operator()(const U& u) const { return lower()(u) && upper()(u); }] *)
Definition bounded_call {U} `{Comparable U T} {LI UI LC UC}
    (b : bounded LI UI LC UC) (u : U) : Eval U T bool :=
  and_then (Name_call (lower b) u) (Name_call (upper b) u).

Definition get_lower_bound {LI UI LC UC} (b : bounded LI UI LC UC) : T :=
  get_bound (lower b).

Definition get_upper_bound {LI UI LC UC} (b : bounded LI UI LC UC) : T :=
  get_bound (upper b).

(** [open_interval<T>] and [closed_interval<T>]: both constants default to
    [dynamic_bound]. *)
Definition open_interval : Type :=
  bounded open open dynamic_bound dynamic_bound.
Definition closed_interval : Type :=
  bounded closed closed dynamic_bound dynamic_bound.

End Constraints.

Arguments BoundConstant T : clear implicits.
Arguments Wrapper T : clear implicits.
Arguments open_interval T : clear implicits.
Arguments closed_interval T : clear implicits.

(** ** namespace detail: the common type of the factory arguments *)

(** [bounded_value_type_impl<T, U1, U2>::type].  The partial specialisation
    [<T, T, T>] declares [type]; the primary template declares nothing and
    carries the assertion. *)
Definition bounded_value_type_impl (T U1 U2 : ctype) : build ctype :=
  if is_same T U1 && is_same U1 U2 then Built T
  else
    static_assert (negb (is_same T U1) && negb (is_same U1 U2))
                  "make_bounded() called with mismatching types" ;;
    Rejected (substitution_failure "type").

(** [detail::bounded_value_type<T, U1, U2>] *)
Definition bounded_value_type (T U1 U2 : ctype) : build ctype :=
  bounded_value_type_impl (decay T) (decay U1) (decay U2).

(** ** Factories, [clamp] and [clamping_verifier] *)

Section Factories.

Context {V : Type}.

(** [constrained_type<T, Constraint, Verifier>] is declared in
    [constrained_type.hpp]; its constructor from a value and a constraint is
    taken as a parameter. *)
Variable bounded_type : bool -> bool -> Type.
Variable bounded_type_ctor : forall LI UI : bool,
  V -> bounded LI UI (@dynamic_bound V) (@dynamic_bound V) -> bounded_type LI UI.
Variable clamped_type : Type.
Variable clamped_type_ctor : V -> closed_interval V -> clamped_type.

(** [make_bounded(T&& value, U1&& lower, U2&& upper)] *)
Definition make_bounded (T U1 U2 : ctype) (value lower_arg upper_arg : V)
  : build (bounded_type true true) :=
  value_type <- bounded_value_type T U1 U2 ;;
  interval <- bounded_ctor value_type closed closed dynamic_bound dynamic_bound
                           U1 U2 lower_arg upper_arg ;;
  ret (bounded_type_ctor value interval).

(** [make_bounded_exclusive(T&& value, U1&& lower, U2&& upper)] *)
Definition make_bounded_exclusive (T U1 U2 : ctype)
    (value lower_arg upper_arg : V) : build (bounded_type false false) :=
  value_type <- bounded_value_type T U1 U2 ;;
  interval <- bounded_ctor value_type open open dynamic_bound dynamic_bound
                           U1 U2 lower_arg upper_arg ;;
  ret (bounded_type_ctor value interval).

(** [make_clamped(T&& value, U1&& lower, U2&& upper)] *)
Definition make_clamped (T U1 U2 : ctype) (value lower_arg upper_arg : V)
  : build clamped_type :=
  value_type <- bounded_value_type T U1 U2 ;;
  interval <- bounded_ctor value_type closed closed dynamic_bound dynamic_bound
                           U1 U2 lower_arg upper_arg ;;
  ret (clamped_type_ctor value interval).

End Factories.

Section Clamping.

Context {T U : Type} `{Comparable U T} `{StaticCast T U}.

(** [void clamp(const closed_interval<T>& interval, U& val)]; the result is
    the content of [val] on return. *)
Definition clamp (interval : closed_interval T) (val : U) : Eval U T U :=
  below <- evaluate Op_lt val (get_lower_bound interval) ;;
  if below then assign (static_cast (get_lower_bound interval))
  else
    above <- evaluate Op_gt val (get_upper_bound interval) ;;
    if above then assign (static_cast (get_upper_bound interval))
    else ret val.

(** [clamping_verifier::verify(Value& val, const less_equal<T>& p)] *)
Definition verify_less_equal (val : U) (p : less_equal (@dynamic_bound T))
  : Eval U T U :=
  holds <- Name_call p val ;;
  if negb holds then assign (static_cast (get_bound p)) else ret val.

(** [clamping_verifier::verify(Value& val, const greater_equal<T>& p)] *)
Definition verify_greater_equal (val : U)
    (p : greater_equal (@dynamic_bound T)) : Eval U T U :=
  holds <- Name_call p val ;;
  if negb holds then assign (static_cast (get_bound p)) else ret val.

(** [clamping_verifier::verify(Value& val, const closed_interval<T>&)] *)
Definition verify_closed_interval (val : U) (interval : closed_interval T)
  : Eval U T U :=
  clamp interval val.

End Clamping.

(** ** Instantiation at [int] *)

(** [int] values are read as integers: the header only compares and copies
    them. *)
#[export] Instance int_Comparable : Comparable Z Z := {
  less_than := Z.ltb;
  less_than_or_equal := Z.leb;
  greater_than := Z.gtb;
  greater_than_or_equal := Z.geb
}.

(** [static_cast<T>(t)] for a [const T& t] copies [t]. *)
#[export] Instance same_StaticCast (T : Type) : StaticCast T T := {
  static_cast := fun t => t
}.

(** [static_cast<unsigned char>(z)] for an [int z]: the value modulo 2^8.
    An [unsigned char] compared with an [int] is promoted to [int], so the
    operators of [int_Comparable] apply to it as they are. *)
Definition unsigned_char_StaticCast : StaticCast Z Z := {|
  static_cast := fun z => (z mod 256)%Z
|}.


(** ** Instantiation at [unsigned int] bounds and a [long long] value *)

(** [unsigned int] values are read as natural numbers. *)
#[export] Instance unsigned_Comparable : Comparable N N := {
  less_than := N.ltb;
  less_than_or_equal := N.leb;
  greater_than := fun a b => N.ltb b a;
  greater_than_or_equal := fun a b => N.leb b a
}.

(** A [long long] against an [unsigned int]: the latter is converted to
    [long long], which holds every value of it. *)
#[export] Instance long_long_unsigned_Comparable : Comparable Z N := {
  less_than := fun u t => (u <? Z.of_N t)%Z;
  less_than_or_equal := fun u t => (u <=? Z.of_N t)%Z;
  greater_than := fun u t => (u >? Z.of_N t)%Z;
  greater_than_or_equal := fun u t => (u >=? Z.of_N t)%Z
}.

(** [static_cast<long long>(n)] for an [unsigned int n]. *)
#[export] Instance unsigned_long_long_StaticCast : StaticCast N Z := {
  static_cast := Z.of_N
}.

(** The object [closed_interval<unsigned>(2, 5)] denotes. *)
Definition unsigned_interval_2_5 : closed_interval N :=
  @Build_bounded N closed closed dynamic_bound dynamic_bound
    (Build_Name Op_ge dynamic_bound {| Wrapper_value := 2%N |})
    (Build_Name Op_le dynamic_bound {| Wrapper_value := 5%N |}).

(** ** Instantiation at a type with an unordered value *)

(** Numbers together with one value that every comparison answers [false]
    on, as the operators of a floating-point type do on a NaN. *)
Inductive partial : Type :=
| ordered (z : Z)
| unordered.

Definition partial_compare (f : Z -> Z -> bool) (a b : partial) : bool :=
  match a, b with
  | ordered x, ordered y => f x y
  | _, _ => false
  end.

#[export] Instance partial_Comparable : Comparable partial partial := {
  less_than := partial_compare Z.ltb;
  less_than_or_equal := partial_compare Z.leb;
  greater_than := partial_compare Z.gtb;
  greater_than_or_equal := partial_compare Z.geb
}.

(** The interval [2,5] over such a type. *)
Definition partial_interval_2_5 : closed_interval partial :=
  @Build_bounded partial closed closed dynamic_bound dynamic_bound
    (Build_Name Op_ge dynamic_bound {| Wrapper_value := ordered 2 |})
    (Build_Name Op_le dynamic_bound {| Wrapper_value := ordered 5 |}).

Definition int : ctype := Fund t_int.
Definition long : ctype := Fund t_long.

(** [closed_interval<int>(lo, hi)] and [open_interval<int>(lo, hi)], built
    from two prvalues. *)
Definition closed_interval_int (lo hi : Z) : build (closed_interval Z) :=
  bounded_ctor int closed closed dynamic_bound dynamic_bound int int lo hi.

Definition open_interval_int (lo hi : Z) : build (open_interval Z) :=
  bounded_ctor int open open dynamic_bound dynamic_bound int int lo hi.

(** [std::integral_constant<int, k>] *)
Definition integral_constant_int (k : Z) : BoundConstant Z := constant int k.

(** The object [less_equal<int>(5)] denotes. *)
Definition less_equal_5 : less_equal (@dynamic_bound Z) :=
  Build_Name Op_le dynamic_bound {| Wrapper_value := 5%Z |}.

(** The object [greater_equal<int>(2)] denotes. *)
Definition greater_equal_2 : greater_equal (@dynamic_bound Z) :=
  Build_Name Op_ge dynamic_bound {| Wrapper_value := 2%Z |}.

(** The object [open_interval<int>(2, 5)] denotes. *)
Definition open_2_5 : open_interval Z :=
  @Build_bounded Z open open dynamic_bound dynamic_bound
    (Build_Name Op_gt dynamic_bound {| Wrapper_value := 2%Z |})
    (Build_Name Op_lt dynamic_bound {| Wrapper_value := 5%Z |}).

(** The objects [closed_interval<int>(300, 1000)],
    [closed_interval<int>(5, -1)] and [closed_interval<int>(5, 2)]
    denote. *)
Definition interval_300_1000 : closed_interval Z :=
  @Build_bounded Z closed closed dynamic_bound dynamic_bound
    (Build_Name Op_ge dynamic_bound {| Wrapper_value := 300%Z |})
    (Build_Name Op_le dynamic_bound {| Wrapper_value := 1000%Z |}).


Definition interval_5_2 : closed_interval Z :=
  @Build_bounded Z closed closed dynamic_bound dynamic_bound
    (Build_Name Op_ge dynamic_bound {| Wrapper_value := 5%Z |})
    (Build_Name Op_le dynamic_bound {| Wrapper_value := 2%Z |}).

(** The object [closed_interval<int>(2, 5)] denotes. *)
Definition interval_2_5 : closed_interval Z :=
  @Build_bounded Z closed closed dynamic_bound dynamic_bound
    (Build_Name Op_ge dynamic_bound {| Wrapper_value := 2%Z |})
    (Build_Name Op_le dynamic_bound {| Wrapper_value := 5%Z |}).

(** * Properties *)

(** ** The [int] operators are lawful *)

#[export] Instance int_OrderLaws : OrderLaws int_Comparable.
Proof.
  constructor; cbn; intros.
  - apply Z.leb_le. apply Z.leb_gt in H. lia.
  - apply Z.leb_le. apply Z.leb_le in H, H0. lia.
  - apply Z.ltb_antisym.
  - rewrite Z.gtb_ltb. apply Z.ltb_antisym.
  - apply Z.geb_leb.
Qed.

#[export] Instance unsigned_OrderLaws : OrderLaws unsigned_Comparable.
Proof.
  constructor; cbn; intros.
  - apply N.leb_le. apply N.leb_gt in H. lia.
  - apply N.leb_le. apply N.leb_le in H, H0. lia.
  - apply N.ltb_antisym.
  - apply N.ltb_antisym.
  - reflexivity.
Qed.

(** ** Shape of the objects and of their construction *)

Section Shapes.

Context {T : Type}.

Lemma dynamic_Name_inv (op : Op) (p : Name op (@dynamic_bound T)) :
  p = Build_Name op dynamic_bound {| Wrapper_value := get_bound p |}.
Proof. destruct p as [[k]]. reflexivity. Qed.

Lemma dynamic_bounded_inv (LI UI : bool)
    (b : bounded LI UI (@dynamic_bound T) (@dynamic_bound T)) :
  b = {| lower := Build_Name _ dynamic_bound
                    {| Wrapper_value := get_lower_bound b |};
         upper := Build_Name _ dynamic_bound
                    {| Wrapper_value := get_upper_bound b |} |}.
Proof. destruct b as [[[lo]] [[hi]]]. reflexivity. Qed.

Lemma Name_forward_dynamic (op : Op) (U : ctype) (k : T) :
  Name_forward op dynamic_bound U k
  = Built (Build_Name op dynamic_bound {| Wrapper_value := k |}).
Proof.
  unfold Name_forward.
  destruct (is_lvalue_reference (normalize U)
            || is_const (remove_reference (normalize U))); reflexivity.
Qed.

Lemma bounded_ctor_dynamic (Tn U1 U2 : ctype) (LI UI : bool) (lo hi : T) :
  decay_same Tn U1 = true -> decay_same Tn U2 = true ->
  bounded_ctor Tn LI UI dynamic_bound dynamic_bound U1 U2 lo hi
  = Built {| lower := Build_Name _ dynamic_bound {| Wrapper_value := lo |};
             upper := Build_Name _ dynamic_bound {| Wrapper_value := hi |} |}.
Proof.
  intros H1 H2. unfold bounded_ctor. cbn. rewrite H1, H2. cbn.
  rewrite !Name_forward_dynamic. reflexivity.
Qed.

Lemma bounded_ctor_mixed (Tn U1 U2 : ctype) (LI UI : bool)
    (LC UC : BoundConstant T) (lo hi : T) :
  is_dynamic LC <> is_dynamic UC ->
  bounded_ctor Tn LI UI LC UC U1 U2 lo hi
  = Rejected (static_assert_failed
                "mixed static and dynamic bounds is unsupported").
Proof. destruct LC, UC; cbn; intros E; congruence. Qed.


End Shapes.

(** ** Spellings of types *)

Lemma normal_add_const (t : ctype) :
  normal t = true -> normal (add_const t) = true.
Proof.
  induction t; cbn; intros H; rewrite ?H; auto.
Qed.

Lemma normal_add_volatile (t : ctype) :
  normal t = true -> normal (add_volatile t) = true.
Proof.
  induction t; cbn; intros H; rewrite ?H; auto.
  apply andb_true_iff in H. destruct H as [H1 H2].
  destruct t; cbn in *; try discriminate; rewrite ?H1; reflexivity.
Qed.

Lemma normal_add_lvalue_reference (t : ctype) :
  normal t = true -> normal (add_lvalue_reference t) = true.
Proof.
  destruct t; cbn; intros H; rewrite ?H; try reflexivity; exact H.
Qed.

Lemma normal_add_rvalue_reference (t : ctype) :
  normal t = true -> normal (add_rvalue_reference t) = true.
Proof.
  destruct t; cbn; intros H; rewrite ?H; try reflexivity; exact H.
Qed.

Lemma normal_normalize (t : ctype) : normal (normalize t) = true.
Proof.
  induction t; cbn; try reflexivity; try assumption.
  - apply normal_add_const. assumption.
  - apply normal_add_volatile. assumption.
  - apply normal_add_lvalue_reference. assumption.
  - apply normal_add_rvalue_reference. assumption.
Qed.

Lemma normalize_normal (t : ctype) : normal t = true -> normalize t = t.
Proof.
  induction t; cbn; intros H; try reflexivity.
  - apply andb_true_iff in H. destruct H as [H1 H2].
    rewrite (IHt H1). destruct t; cbn in *; try discriminate; reflexivity.
  - apply andb_true_iff in H. destruct H as [H1 H2].
    rewrite (IHt H1). destruct t; cbn in *; try discriminate; reflexivity.
  - rewrite (IHt H). reflexivity.
  - rewrite (IHt H). reflexivity.
  - apply andb_true_iff in H. destruct H as [H1 H2].
    rewrite (IHt H1). destruct t; cbn in *; try discriminate; reflexivity.
  - apply andb_true_iff in H. destruct H as [H1 H2].
    rewrite (IHt H1). destruct t; cbn in *; try discriminate; reflexivity.
Qed.

Lemma normalize_idempotent (t : ctype) : normalize (normalize t) = normalize t.
Proof. apply normalize_normal. apply normal_normalize. Qed.

Lemma normal_remove_cv (t : ctype) :
  normal t = true -> normal (remove_cv t) = true.
Proof.
  induction t; cbn; intros H; try exact H;
    apply andb_true_iff in H; destruct H as [H1 H2]; apply IHt; exact H1.
Qed.

Lemma normal_decay (t : ctype) : normal (decay t) = true.
Proof.
  unfold decay. pose proof (normal_normalize t) as H.
  assert (R : normal (remove_reference (normalize t)) = true).
  { destruct (normalize t); cbn in *; try exact H;
      apply andb_true_iff in H; destruct H as [H1 H2]; exact H1. }
  destruct (remove_reference (normalize t)) eqn:E;
    try (rewrite <- E in *; apply normal_remove_cv; exact R).
  exact R.
Qed.

Lemma normalize_decay (t : ctype) : normalize (decay t) = decay t.
Proof. apply normalize_normal. apply normal_decay. Qed.

(** A type that differs from another only in spelling decays as it does. *)
Lemma decay_normalize (t : ctype) : decay (normalize t) = decay t.
Proof. unfold decay. rewrite normalize_idempotent. reflexivity. Qed.

Lemma is_same_true (a b : ctype) :
  is_same a b = true <-> normalize a = normalize b.
Proof.
  unfold is_same.
  destruct (ctype_eq_dec (normalize a) (normalize b)); split; congruence.
Qed.

Lemma is_same_refl (a : ctype) : is_same a a = true.
Proof. apply is_same_true. reflexivity. Qed.

Lemma is_same_decay (a b : ctype) :
  is_same (decay a) (decay b) = true <-> decay a = decay b.
Proof. rewrite is_same_true, !normalize_decay. reflexivity. Qed.

(** ** Bound predicates *)

(** C1: for each of the four predicate kinds, with the bound [k] held either
    dynamically (constructed from [k] by copy or by move) or statically (the
    nested value of the constant type), the test [operator()] on a candidate
    [x] returns exactly [x Op k]; the call does nothing but evaluate that one
    comparison, assigns nothing, and calling it twice yields the same answer
    twice. *)
Theorem predicate_test_is_relation :
  forall (U T : Type) (C : Comparable U T) (op : Op) (k : T) (x : U),
    apply_Op Op_lt x k = less_than x k /\
    apply_Op Op_le x k = less_than_or_equal x k /\
    apply_Op Op_gt x k = greater_than x k /\
    apply_Op Op_ge x k = greater_than_or_equal x k /\
    fmap (fun p => Name_call p x) (Name_copy op dynamic_bound k)
      = Built (apply_Op op x k, [Compared op x k]) /\
    fmap (fun p => Name_call p x) (Name_move op dynamic_bound k)
      = Built (apply_Op op x k, [Compared op x k]) /\
    (forall vt : ctype,
       fmap (fun p => Name_call p x) (Name_default op (constant vt k))
       = Built (apply_Op op x k, [Compared op x k])) /\
    (forall (BC : BoundConstant T) (p : Name op BC),
       result (Name_call p x) = apply_Op op x (get_bound p) /\
       assignments (Name_call p x) = 0%nat /\
       result (a <- Name_call p x ;; b <- Name_call p x ;; ret (a, b))
       = (apply_Op op x (get_bound p), apply_Op op x (get_bound p))).
Proof.
  intros U T C op k x.
  repeat split; reflexivity.
Qed.

(** C8: for every predicate kind, construction without argument is built
    exactly when the bound is static, and construction from one argument (by
    copy or by move) exactly when it is dynamic; the wrong mode is refused by
    the [static_assert] of the constructor used, whatever the argument. *)
Theorem construction_modes_exclusive :
  forall (T : Type) (op : Op) (BC : BoundConstant T),
    is_built (Name_default op BC) = negb (is_dynamic BC) /\
    (forall k : T, is_built (Name_copy op BC k) = is_dynamic BC) /\
    (forall k : T, is_built (Name_move op BC k) = is_dynamic BC) /\
    Name_default op (@dynamic_bound T)
      = Rejected (static_assert_failed "constructor requires static bound") /\
    (forall (vt : ctype) (k k' : T),
       Name_copy op (constant vt k) k'
       = Rejected (static_assert_failed "constructor requires dynamic bound") /\
       Name_move op (constant vt k) k'
       = Rejected (static_assert_failed "constructor requires dynamic bound") /\
       fmap get_bound (Name_default op (constant vt k)) = Built k) /\
    (forall k : T,
       fmap get_bound (Name_copy op dynamic_bound k) = Built k /\
       fmap get_bound (Name_move op dynamic_bound k) = Built k).
Proof.
  intros T op BC.
  repeat split; try reflexivity; destruct BC; reflexivity.
Qed.

(** ** Intervals *)

(** C2: for every bounded interval, whatever its inclusivity flags and its
    bound representations, the test on [u] equals [lower(u) && upper(u)];
    the lower predicate is evaluated first, and the upper predicate is
    evaluated only when the lower predicate holds. *)
Theorem bounded_test_short_circuits :
  forall (U T : Type) (C : Comparable U T) (LI UI : bool)
         (LC UC : BoundConstant T) (b : bounded LI UI LC UC) (u : U),
    result (bounded_call b u)
      = result (Name_call (lower b) u) && result (Name_call (upper b) u) /\
    trace (bounded_call b u)
      = (if result (Name_call (lower b) u)
         then trace (Name_call (lower b) u) ++ trace (Name_call (upper b) u)
         else trace (Name_call (lower b) u)) /\
    comparisons (bounded_call b u)
      = (if result (Name_call (lower b) u) then 2%nat else 1%nat).
Proof.
  intros U T C LI UI LC UC b u.
  unfold bounded_call, and_then, Name_call, evaluate, result, trace,
    comparisons.
  cbn.
  destruct (apply_Op (if LI then Op_ge else Op_gt) u (get_bound (lower b)));
    cbn; repeat split; reflexivity.
Qed.

(** C4: the closed interval with bounds 2 and 5 contains 2 and 5 and rejects
    1 and 6; the open interval with the same bounds rejects 2 and 5 and
    contains 3. *)
Theorem interval_endpoints :
  fmap (fun i => result (bounded_call i 2%Z)) (closed_interval_int 2 5)
    = Built true /\
  fmap (fun i => result (bounded_call i 5%Z)) (closed_interval_int 2 5)
    = Built true /\
  fmap (fun i => result (bounded_call i 1%Z)) (closed_interval_int 2 5)
    = Built false /\
  fmap (fun i => result (bounded_call i 6%Z)) (closed_interval_int 2 5)
    = Built false /\
  fmap (fun i => result (bounded_call i 2%Z)) (open_interval_int 2 5)
    = Built false /\
  fmap (fun i => result (bounded_call i 5%Z)) (open_interval_int 2 5)
    = Built false /\
  fmap (fun i => result (bounded_call i 3%Z)) (open_interval_int 2 5)
    = Built true.
Proof. repeat split; vm_compute; reflexivity. Qed.

(** ** Clamping *)

Section ClampFacts.

Context {T U : Type} {C : Comparable U T} {S : StaticCast T U}.

(** The three ways through [clamp], each with all it does. *)
Lemma clamp_unfold (interval : closed_interval T) (val : U) :
  clamp interval val
  = if less_than val (get_lower_bound interval)
    then (static_cast (get_lower_bound interval),
          [Compared Op_lt val (get_lower_bound interval);
           Assigned (static_cast (get_lower_bound interval))])
    else if greater_than val (get_upper_bound interval)
    then (static_cast (get_upper_bound interval),
          [Compared Op_lt val (get_lower_bound interval);
           Compared Op_gt val (get_upper_bound interval);
           Assigned (static_cast (get_upper_bound interval))])
    else (val,
          [Compared Op_lt val (get_lower_bound interval);
           Compared Op_gt val (get_upper_bound interval)]).
Proof.
  unfold clamp, evaluate, assign, apply_Op.
  destruct (less_than val (get_lower_bound interval)); [reflexivity|].
  destruct (greater_than val (get_upper_bound interval)); reflexivity.
Qed.

Lemma verify_less_equal_unfold (val : U) (p : less_equal (@dynamic_bound T)) :
  verify_less_equal val p
  = if less_than_or_equal val (get_bound p)
    then (val, [Compared Op_le val (get_bound p)])
    else (static_cast (get_bound p),
          [Compared Op_le val (get_bound p);
           Assigned (static_cast (get_bound p))]).
Proof.
  unfold verify_less_equal, Name_call, evaluate, assign, apply_Op.
  destruct (less_than_or_equal val (get_bound p)); reflexivity.
Qed.

Lemma verify_greater_equal_unfold (val : U)
    (p : greater_equal (@dynamic_bound T)) :
  verify_greater_equal val p
  = if greater_than_or_equal val (get_bound p)
    then (val, [Compared Op_ge val (get_bound p)])
    else (static_cast (get_bound p),
          [Compared Op_ge val (get_bound p);
           Assigned (static_cast (get_bound p))]).
Proof.
  unfold verify_greater_equal, Name_call, evaluate, assign, apply_Op.
  destruct (greater_than_or_equal val (get_bound p)); reflexivity.
Qed.

End ClampFacts.

(** C3: [clamp] on the closed interval [2,5] turns 10 into 5, -1 into 2 and
    leaves 3 as it is; and every call of [clamp] goes through exactly one of
    three branches (below the lower bound, above the upper bound, neither),
    assigning at most once after at most two comparisons. *)
Theorem clamp_examples_and_branches :
  fmap (fun i => clamp i 10%Z) (closed_interval_int 2 5)
    = Built (5%Z, [Compared Op_lt 10%Z 2%Z; Compared Op_gt 10%Z 5%Z;
                   Assigned 5%Z]) /\
  fmap (fun i => clamp i (-1)%Z) (closed_interval_int 2 5)
    = Built (2%Z, [Compared Op_lt (-1)%Z 2%Z; Assigned 2%Z]) /\
  fmap (fun i => clamp i 3%Z) (closed_interval_int 2 5)
    = Built (3%Z, [Compared Op_lt 3%Z 2%Z; Compared Op_gt 3%Z 5%Z]) /\
  forall (T U : Type) (C : Comparable U T) (S : StaticCast T U)
         (interval : closed_interval T) (val : U),
    let lo := get_lower_bound interval in
    let hi := get_upper_bound interval in
    let r := clamp interval val in
    let below :=
      less_than val lo = true /\
      r = (static_cast lo, [Compared Op_lt val lo; Assigned (static_cast lo)]) in
    let above :=
      less_than val lo = false /\ greater_than val hi = true /\
      r = (static_cast hi,
           [Compared Op_lt val lo; Compared Op_gt val hi;
            Assigned (static_cast hi)]) in
    let neither :=
      less_than val lo = false /\ greater_than val hi = false /\
      r = (val, [Compared Op_lt val lo; Compared Op_gt val hi]) in
    ((below /\ ~ above /\ ~ neither) \/
     (~ below /\ above /\ ~ neither) \/
     (~ below /\ ~ above /\ neither)) /\
    (assignments r <= 1)%nat /\ (comparisons r <= 2)%nat.
Proof.
  split; [vm_compute; reflexivity|].
  split; [vm_compute; reflexivity|].
  split; [vm_compute; reflexivity|].
  intros T U C S interval val lo hi r below above neither.
  subst below above neither r. rewrite clamp_unfold. fold lo hi.
  destruct (less_than val lo) eqn:Elo; [|destruct (greater_than val hi) eqn:Ehi].
  - split; [left|split; cbn; lia].
    repeat split; intuition congruence.
  - split; [right; left|split; cbn; lia].
    repeat split; intuition congruence.
  - split; [right; right|split; cbn; lia].
    repeat split; intuition congruence.
Qed.



(** ** Intervals over lawful operators *)

(** The answer of an interval's test, in terms of its two bounds. *)
Lemma bounded_call_result {U T : Type} {C : Comparable U T} (LI UI : bool)
    (LC UC : BoundConstant T) (b : bounded LI UI LC UC) (u : U) :
  result (bounded_call b u)
  = apply_Op (if LI then Op_ge else Op_gt) u (get_lower_bound b)
    && apply_Op (if UI then Op_le else Op_lt) u (get_upper_bound b).
Proof.
  unfold bounded_call, and_then, Name_call, evaluate, result,
    get_lower_bound, get_upper_bound.
  cbn [bind Eval_Monad].
  destruct (apply_Op (if LI then Op_ge else Op_gt) u (get_bound (lower b)));
    reflexivity.
Qed.

Section Lawful.

Context {T : Type} {C : Comparable T T} {L : OrderLaws C}.

Lemma le_refl (a : T) : less_than_or_equal a a = true.
Proof.
  destruct (less_than_or_equal a a) eqn:E; [reflexivity|].
  rewrite <- E. apply le_total. exact E.
Qed.

(** The test of a closed interval, read through [<=] alone. *)
Lemma closed_call_le (i : closed_interval T) (u : T) :
  result (bounded_call i u)
  = less_than_or_equal (get_lower_bound i) u
    && less_than_or_equal u (get_upper_bound i).
Proof.
  rewrite bounded_call_result. cbn [apply_Op closed].
  rewrite ge_le. reflexivity.
Qed.

(** The test of an open interval, read through [<=] alone. *)
Lemma open_call_le (i : open_interval T) (u : T) :
  result (bounded_call i u)
  = negb (less_than_or_equal u (get_lower_bound i))
    && negb (less_than_or_equal (get_upper_bound i) u).
Proof.
  rewrite bounded_call_result. cbn [apply_Op open].
  rewrite gt_le, lt_le. reflexivity.
Qed.

Lemma closed_empty_when_inverted (i : closed_interval T) (u : T) :
  greater_than (get_lower_bound i) (get_upper_bound i) = true ->
  result (bounded_call i u) = false.
Proof.
  rewrite gt_le, closed_call_le. intros H.
  destruct (less_than_or_equal (get_lower_bound i) u) eqn:E1; [|reflexivity].
  destruct (less_than_or_equal u (get_upper_bound i)) eqn:E2; [|reflexivity].
  rewrite (le_trans _ _ _ E1 E2) in H. discriminate.
Qed.


Lemma clamp_result (i : closed_interval T) (v : T) :
  result (clamp i v)
  = if less_than v (get_lower_bound i) then get_lower_bound i
    else if greater_than v (get_upper_bound i) then get_upper_bound i
    else v.
Proof.
  rewrite clamp_unfold.
  destruct (less_than v (get_lower_bound i)); [reflexivity|].
  destruct (greater_than v (get_upper_bound i)); reflexivity.
Qed.

Lemma clamp_valid (i : closed_interval T) (v : T) :
  less_than_or_equal (get_lower_bound i) (get_upper_bound i) = true ->
  result (bounded_call i (result (clamp i v))) = true.
Proof.
  intros H. rewrite closed_call_le, clamp_result, lt_le, gt_le.
  destruct (less_than_or_equal (get_lower_bound i) v) eqn:E1;
    cbn [negb].
  - destruct (less_than_or_equal v (get_upper_bound i)) eqn:E2;
      cbn [negb].
    + rewrite E1, E2. reflexivity.
    + rewrite H, le_refl. reflexivity.
  - rewrite H, le_refl. reflexivity.
Qed.

End Lawful.







(** ** Build-time checks of [bounded] *)

Lemma Name_forward_static {T : Type} (op : Op) (vt U : ctype) (k bound : T) :
  Name_forward op (constant vt k) U bound
  = Rejected (static_assert_failed "constructor requires dynamic bound").
Proof.
  unfold Name_forward.
  destruct (is_lvalue_reference (normalize U)
            || is_const (remove_reference (normalize U))); reflexivity.
Qed.

Lemma bounded_ctor_static {T : Type} (Tn U1 U2 vt1 vt2 : ctype)
    (LI UI : bool) (k1 k2 lo hi : T) :
  is_built (bounded_ctor Tn LI UI (constant vt1 k1) (constant vt2 k2)
                         U1 U2 lo hi) = false.
Proof.
  unfold bounded_ctor. cbn.
  destruct (decay_same Tn U1); [|reflexivity].
  destruct (decay_same Tn U2); [|reflexivity].
  cbn. rewrite Name_forward_static. reflexivity.
Qed.

Lemma bounded_default_static {T : Type} (Tn vt1 vt2 : ctype) (LI UI : bool)
    (k1 k2 : T) :
  decay_same Tn vt1 = true -> decay_same Tn vt2 = true ->
  bounded_default Tn LI UI (constant vt1 k1) (constant vt2 k2)
  = Built {| lower := Build_Name _ (constant vt1 k1) tt;
             upper := Build_Name _ (constant vt2 k2) tt |}.
Proof.
  intros H1 H2. unfold bounded_default. cbn. rewrite H1, H2. reflexivity.
Qed.



(** ** The factory layer *)

(** The factories are built only for arguments that decay to one type. *)
Lemma bounded_value_type_built (T U1 U2 X : ctype) :
  bounded_value_type T U1 U2 = Built X
  <-> decay T = X /\ decay U1 = X /\ decay U2 = X.
Proof.
  unfold bounded_value_type, bounded_value_type_impl.
  destruct (is_same (decay T) (decay U1)) eqn:E1;
    destruct (is_same (decay U1) (decay U2)) eqn:E2; cbn.
  - apply is_same_decay in E1, E2. split.
    + intros Q. injection Q as Q. repeat split; congruence.
    + intros [Q _]. congruence.
  - split; [discriminate|].
    intros (Q1 & Q2 & Q3). rewrite Q2, Q3, is_same_refl in E2. discriminate.
  - split; [discriminate|].
    intros (Q1 & Q2 & Q3). rewrite Q1, Q2, is_same_refl in E1. discriminate.
  - split; [discriminate|].
    intros (Q1 & Q2 & Q3). rewrite Q1, Q2, is_same_refl in E1. discriminate.
Qed.

(** Which diagnostic a mismatch gets: the assertion speaks only when the
    first two or the last two types agree. *)
Lemma bounded_value_type_mismatch (T U1 U2 : ctype) :
  ~ (decay T = decay U1 /\ decay U1 = decay U2) ->
  bounded_value_type T U1 U2
  = if is_same (decay T) (decay U1) || is_same (decay U1) (decay U2)
    then Rejected (static_assert_failed
                     "make_bounded() called with mismatching types")
    else Rejected (substitution_failure "type").
Proof.
  intros N. unfold bounded_value_type, bounded_value_type_impl.
  destruct (is_same (decay T) (decay U1)) eqn:E1;
    destruct (is_same (decay U1) (decay U2)) eqn:E2; cbn; try reflexivity.
  apply is_same_decay in E1, E2. tauto.
Qed.

(** C6: [make_bounded], [make_bounded_exclusive] and [make_clamped] called
    with an [int] value, a [long] lower bound and an [int] upper bound are
    refused, but by a substitution failure on the missing member [type]: the
    assertion of [bounded_value_type_impl] holds for these types, and the
    diagnostic does not name "mismatching types", as it does for an [int]
    value, an [int] lower bound and a [long] upper bound. *)
Theorem make_bounded_int_long_int :
  bounded_value_type int long int = Rejected (substitution_failure "type") /\
  bounded_value_type int int long
    = Rejected (static_assert_failed
                  "make_bounded() called with mismatching types") /\
  names "make_bounded() called with mismatching types"
        (substitution_failure "type") = false /\
  forall (V : Type) (bounded_type : bool -> bool -> Type)
         (bounded_type_ctor : forall LI UI : bool,
            V -> bounded LI UI (@dynamic_bound V) (@dynamic_bound V) ->
            bounded_type LI UI)
         (clamped_type : Type)
         (clamped_type_ctor : V -> closed_interval V -> clamped_type)
         (value lo hi : V),
    make_bounded bounded_type bounded_type_ctor int long int value lo hi
      = Rejected (substitution_failure "type") /\
    make_bounded_exclusive bounded_type bounded_type_ctor int long int
                           value lo hi
      = Rejected (substitution_failure "type") /\
    make_clamped clamped_type_ctor int long int value lo hi
      = Rejected (substitution_failure "type").
Proof.
  split; [reflexivity|]. split; [reflexivity|]. split; [reflexivity|].
  intros. repeat split; reflexivity.
Qed.

(** * Further properties of the header *)

(** ** [clamp] over lawful operators *)

Section ClampLaws.

Context {T : Type} {C : Comparable T T} {L : OrderLaws C}.

(** [clamp] read through [<=] alone. *)
Lemma clamp_result_le (i : closed_interval T) (v : T) :
  result (clamp i v)
  = if less_than_or_equal (get_lower_bound i) v
    then if less_than_or_equal v (get_upper_bound i) then v
         else get_upper_bound i
    else get_lower_bound i.
Proof.
  rewrite clamp_result, lt_le, gt_le.
  destruct (less_than_or_equal (get_lower_bound i) v); [|reflexivity].
  destruct (less_than_or_equal v (get_upper_bound i)); reflexivity.
Qed.

Lemma clamp_member (i : closed_interval T) (v : T) :
  result (bounded_call i v) = true ->
  clamp i v
  = (v, [Compared Op_lt v (get_lower_bound i);
         Compared Op_gt v (get_upper_bound i)]).
Proof.
  rewrite closed_call_le, clamp_unfold, lt_le, gt_le. intros H.
  apply andb_true_iff in H. destruct H as [H1 H2]. rewrite H1, H2.
  reflexivity.
Qed.

Lemma clamp_nonmember (i : closed_interval T) (v : T) :
  result (bounded_call i v) = false -> assignments (clamp i v) = 1%nat.
Proof.
  rewrite closed_call_le, clamp_unfold, lt_le, gt_le. intros H.
  destruct (less_than_or_equal (get_lower_bound i) v); [|reflexivity].
  destruct (less_than_or_equal v (get_upper_bound i)); [discriminate|].
  reflexivity.
Qed.

End ClampLaws.

(** X1: over lawful operators [clamp] changes nothing exactly on the members
    of the interval: when the interval's test holds on [v], [clamp] compares
    twice, assigns nothing and leaves [v]; when the test fails it assigns
    once.  This holds for every pair of bounds, in either order. *)
Theorem clamp_identity_on_members :
  forall (T : Type) (C : Comparable T T) (L : OrderLaws C)
         (i : closed_interval T) (v : T),
    (result (bounded_call i v) = true ->
     clamp i v = (v, [Compared Op_lt v (get_lower_bound i);
                      Compared Op_gt v (get_upper_bound i)])) /\
    assignments (clamp i v)
    = (if result (bounded_call i v) then 0%nat else 1%nat).
Proof.
  intros T C L i v. split; [apply clamp_member|].
  destruct (result (bounded_call i v)) eqn:E.
  - rewrite (clamp_member i v E). reflexivity.
  - apply clamp_nonmember. exact E.
Qed.

(** Over [int]: 3 is in [2,5], so [clamp] leaves it. *)
Lemma clamp_identity_on_members_witness :
  result (bounded_call interval_2_5 3%Z) = true /\
  clamp interval_2_5 3%Z
  = (3%Z, [Compared Op_lt 3%Z 2%Z; Compared Op_gt 3%Z 5%Z]).
Proof.
  split; [reflexivity|].
  apply (proj1 (clamp_identity_on_members int_OrderLaws interval_2_5 3%Z)).
  reflexivity.
Defined.

(** X2: over lawful operators and bounds with lower <= upper, [clamp] is
    idempotent: clamping an already clamped value assigns nothing and
    returns it unchanged. *)
Theorem clamp_idempotent :
  forall (T : Type) (C : Comparable T T) (L : OrderLaws C)
         (i : closed_interval T) (v : T),
    less_than_or_equal (get_lower_bound i) (get_upper_bound i) = true ->
    result (clamp i (result (clamp i v))) = result (clamp i v) /\
    assignments (clamp i (result (clamp i v))) = 0%nat.
Proof.
  intros T C L i v H.
  rewrite (clamp_member i (result (clamp i v)) (clamp_valid i v H)).
  split; reflexivity.
Qed.

(** Over [int]: 10 clamped twice to [2,5]. *)
Lemma clamp_idempotent_witness :
  result (clamp interval_2_5 (result (clamp interval_2_5 10%Z)))
    = result (clamp interval_2_5 10%Z) /\
  assignments (clamp interval_2_5 (result (clamp interval_2_5 10%Z))) = 0%nat.
Proof.
  apply (clamp_idempotent int_OrderLaws interval_2_5 10%Z). reflexivity.
Defined.

(** X3: over lawful operators and bounds with lower <= upper, [clamp] is
    monotone: if [v <= w] then the clamped [v] is [<=] the clamped [w]. *)
Theorem clamp_monotone :
  forall (T : Type) (C : Comparable T T) (L : OrderLaws C)
         (i : closed_interval T) (v w : T),
    less_than_or_equal (get_lower_bound i) (get_upper_bound i) = true ->
    less_than_or_equal v w = true ->
    less_than_or_equal (result (clamp i v)) (result (clamp i w)) = true.
Proof.
  intros T C L i v w H Hvw. rewrite !clamp_result_le.
  set (lo := get_lower_bound i) in *. set (hi := get_upper_bound i) in *.
  destruct (less_than_or_equal lo v) eqn:Ev1;
    [destruct (less_than_or_equal v hi) eqn:Ev2|];
    (destruct (less_than_or_equal lo w) eqn:Ew1;
     [destruct (less_than_or_equal w hi) eqn:Ew2|]).
  - exact Hvw.
  - exact Ev2.
  - apply le_total in Ew1. exact (le_trans _ _ _ Hvw Ew1).
  - rewrite (le_trans _ _ _ Hvw Ew2) in Ev2. discriminate.
  - apply le_refl.
  - apply le_total in Ew1.
    rewrite (le_trans _ _ _ (le_trans _ _ _ Hvw Ew1) H) in Ev2. discriminate.
  - exact Ew1.
  - exact H.
  - apply le_refl.
Qed.

(** Over [int]: 1 <= 10, and clamped to [2,5] they are 2 <= 5. *)
Lemma clamp_monotone_witness :
  less_than_or_equal (result (clamp interval_2_5 1%Z))
                     (result (clamp interval_2_5 10%Z)) = true.
Proof.
  apply (clamp_monotone int_OrderLaws interval_2_5 1%Z 10%Z); reflexivity.
Defined.



(** ** [clamping_verifier] over lawful operators *)

Section VerifierLaws.

Context {T : Type} {C : Comparable T T} {L : OrderLaws C}.

Lemma verify_less_equal_result (v : T) (p : less_equal (@dynamic_bound T)) :
  result (verify_less_equal v p)
  = if less_than_or_equal v (get_bound p) then v else get_bound p.
Proof.
  rewrite verify_less_equal_unfold.
  destruct (less_than_or_equal v (get_bound p)); reflexivity.
Qed.

Lemma verify_greater_equal_result (v : T)
    (p : greater_equal (@dynamic_bound T)) :
  result (verify_greater_equal v p)
  = if less_than_or_equal (get_bound p) v then v else get_bound p.
Proof.
  rewrite verify_greater_equal_unfold, ge_le.
  destruct (less_than_or_equal (get_bound p) v); reflexivity.
Qed.

End VerifierLaws.

(** X5: over lawful operators, what [clamping_verifier::verify] leaves in
    [val] satisfies the predicate it was verified against, for [less_equal]
    and for [greater_equal]; verifying it a second time assigns nothing. *)
Theorem verify_establishes_predicate :
  forall (T : Type) (C : Comparable T T) (L : OrderLaws C) (v : T),
    (forall p : less_equal (@dynamic_bound T),
       result (Name_call p (result (verify_less_equal v p))) = true /\
       assignments (verify_less_equal (result (verify_less_equal v p)) p)
       = 0%nat) /\
    (forall p : greater_equal (@dynamic_bound T),
       result (Name_call p (result (verify_greater_equal v p))) = true /\
       assignments (verify_greater_equal (result (verify_greater_equal v p)) p)
       = 0%nat).
Proof.
  intros T C L v. split; intros p.
  - assert (H : less_than_or_equal (result (verify_less_equal v p))
                                   (get_bound p) = true).
    { rewrite verify_less_equal_result.
      destruct (less_than_or_equal v (get_bound p)) eqn:E;
        [exact E|apply le_refl]. }
    split; [exact H|].
    rewrite verify_less_equal_unfold, H. reflexivity.
  - assert (H : less_than_or_equal (get_bound p)
                  (result (verify_greater_equal v p)) = true).
    { rewrite verify_greater_equal_result.
      destruct (less_than_or_equal (get_bound p) v) eqn:E;
        [exact E|apply le_refl]. }
    split.
    + unfold Name_call, evaluate, result, apply_Op. cbn [fst].
      rewrite ge_le. exact H.
    + rewrite verify_greater_equal_unfold, ge_le, H. reflexivity.
Qed.

(** Over [int]: 7 verified against [less_equal<int>(5)], 1 against
    [greater_equal<int>(2)]. *)
Lemma verify_establishes_predicate_witness :
  result (Name_call less_equal_5 (result (verify_less_equal 7%Z less_equal_5)))
    = true /\
  result (Name_call greater_equal_2
            (result (verify_greater_equal 1%Z greater_equal_2))) = true.
Proof.
  split.
  - exact (proj1 (proj1 (verify_establishes_predicate int_OrderLaws 7%Z)
                    less_equal_5)).
  - exact (proj1 (proj2 (verify_establishes_predicate int_OrderLaws 1%Z)
                    greater_equal_2)).
Defined.

(** X6: over lawful operators and bounds with lower <= upper, verifying a
    value against a closed interval leaves what verifying it against the
    interval's two one-sided predicates in turn leaves, whichever of the two
    comes first. *)
Theorem verify_closed_interval_composes :
  forall (T : Type) (C : Comparable T T) (L : OrderLaws C)
         (i : closed_interval T) (v : T),
    less_than_or_equal (get_lower_bound i) (get_upper_bound i) = true ->
    result (verify_less_equal (result (verify_greater_equal v (lower i)))
                              (upper i))
      = result (verify_closed_interval v i) /\
    result (verify_greater_equal (result (verify_less_equal v (upper i)))
                                 (lower i))
      = result (verify_closed_interval v i).
Proof.
  intros T C L i v H. unfold verify_closed_interval.
  rewrite clamp_result_le.
  rewrite !verify_less_equal_result, !verify_greater_equal_result.
  destruct i as [[[lo]] [[hi]]].
  cbn [get_lower_bound get_upper_bound get_bound lower upper base Base_value
       Wrapper_value] in *.
  destruct (less_than_or_equal lo v) eqn:E1;
    destruct (less_than_or_equal v hi) eqn:E2;
    rewrite ?E1, ?E2, ?H, ?le_refl; try (split; reflexivity).
  apply le_total in E1. rewrite (le_trans _ _ _ E1 H) in E2. discriminate.
Qed.

(** Over [int]: 10 verified against [2,5]. *)
Lemma verify_closed_interval_composes_witness :
  result (verify_less_equal
            (result (verify_greater_equal 10%Z (lower interval_2_5)))
            (upper interval_2_5))
    = result (verify_closed_interval 10%Z interval_2_5) /\
  result (verify_greater_equal
            (result (verify_less_equal 10%Z (upper interval_2_5)))
            (lower interval_2_5))
    = result (verify_closed_interval 10%Z interval_2_5).
Proof.
  apply (verify_closed_interval_composes int_OrderLaws interval_2_5 10%Z).
  reflexivity.
Defined.

(** ** Membership in [bounded] over lawful operators *)

Section IntervalLaws.

Context {T : Type} {C : Comparable T T} {L : OrderLaws C}.

(** The test of any interval, read through [<=] alone. *)
Lemma bounded_call_le (LI UI : bool) (LC UC : BoundConstant T)
    (b : bounded LI UI LC UC) (u : T) :
  result (bounded_call b u)
  = (if LI then less_than_or_equal (get_lower_bound b) u
     else negb (less_than_or_equal u (get_lower_bound b)))
    && (if UI then less_than_or_equal u (get_upper_bound b)
        else negb (less_than_or_equal (get_upper_bound b) u)).
Proof.
  rewrite bounded_call_result.
  destruct LI, UI; cbn [apply_Op]; rewrite ?ge_le, ?gt_le, ?lt_le;
    reflexivity.
Qed.

End IntervalLaws.

(** X7: over lawful operators and bounds with lower < upper, the flags
    [LowerInclusive] and [UpperInclusive] decide whether the bounds
    themselves pass the test: the test on the lower bound returns
    [LowerInclusive], the test on the upper bound [UpperInclusive], for
    static and dynamic bounds alike. *)
Theorem inclusive_flags_decide_endpoints :
  forall (T : Type) (C : Comparable T T) (L : OrderLaws C) (LI UI : bool)
         (LC UC : BoundConstant T) (b : bounded LI UI LC UC),
    less_than (get_lower_bound b) (get_upper_bound b) = true ->
    result (bounded_call b (get_lower_bound b)) = LI /\
    result (bounded_call b (get_upper_bound b)) = UI.
Proof.
  intros T C L LI UI LC UC b H. rewrite lt_le in H.
  apply negb_true_iff in H. pose proof (le_total _ _ H) as H'.
  rewrite !bounded_call_le, !le_refl, H, H'.
  destruct LI, UI; split; reflexivity.
Qed.

(** Over [int]: the bounds of the open interval (2,5) are not members. *)
Lemma inclusive_flags_decide_endpoints_witness :
  result (bounded_call open_2_5 2%Z) = false /\
  result (bounded_call open_2_5 5%Z) = false.
Proof.
  apply (inclusive_flags_decide_endpoints int_OrderLaws open_2_5).
  reflexivity.
Defined.

(** X8: over lawful operators, turning a bound from exclusive to inclusive
    only adds members: if two intervals report the same bounds and every
    flag set in the first is set in the second, a candidate that passes the
    first passes the second.  In particular an open interval lies within
    the closed interval of the same bounds. *)
Theorem inclusive_flags_widen :
  forall (T : Type) (C : Comparable T T) (L : OrderLaws C)
         (LI UI LI' UI' : bool) (LC UC LC' UC' : BoundConstant T)
         (b : bounded LI UI LC UC) (b' : bounded LI' UI' LC' UC') (u : T),
    implb LI LI' = true -> implb UI UI' = true ->
    get_lower_bound b = get_lower_bound b' ->
    get_upper_bound b = get_upper_bound b' ->
    result (bounded_call b u) = true ->
    result (bounded_call b' u) = true.
Proof.
  intros T C L LI UI LI' UI' LC UC LC' UC' b b' u HL HU El Eu.
  rewrite !bounded_call_le, <- El, <- Eu. intros H.
  apply andb_true_iff in H. destruct H as [H1 H2].
  apply andb_true_iff. split.
  - destruct LI, LI'; try discriminate; try exact H1.
    apply negb_true_iff in H1. apply le_total. exact H1.
  - destruct UI, UI'; try discriminate; try exact H2.
    apply negb_true_iff in H2. apply le_total. exact H2.
Qed.

(** Over [int]: 3 is in (2,5), hence in [2,5]. *)
Lemma inclusive_flags_widen_witness :
  result (bounded_call interval_2_5 3%Z) = true.
Proof.
  apply (@inclusive_flags_widen Z int_Comparable int_OrderLaws
           open open closed closed _ _ _ _ open_2_5 interval_2_5 3%Z);
    reflexivity.
Defined.

(** X9: over lawful operators a closed interval has a member exactly when
    its lower bound is [<=] its upper bound; both bounds are then
    members. *)
Theorem closed_interval_nonempty_iff :
  forall (T : Type) (C : Comparable T T) (L : OrderLaws C)
         (i : closed_interval T),
    ((exists u : T, result (bounded_call i u) = true) <->
     less_than_or_equal (get_lower_bound i) (get_upper_bound i) = true) /\
    (less_than_or_equal (get_lower_bound i) (get_upper_bound i) = true ->
     result (bounded_call i (get_lower_bound i)) = true /\
     result (bounded_call i (get_upper_bound i)) = true).
Proof.
  intros T C L i.
  assert (M : less_than_or_equal (get_lower_bound i) (get_upper_bound i)
              = true ->
              result (bounded_call i (get_lower_bound i)) = true /\
              result (bounded_call i (get_upper_bound i)) = true).
  { intros H. rewrite !closed_call_le, !le_refl, H. split; reflexivity. }
  split; [split|exact M].
  - intros [u Hu]. rewrite closed_call_le in Hu.
    apply andb_true_iff in Hu. destruct Hu as [H1 H2].
    exact (le_trans _ _ _ H1 H2).
  - intros H. exists (get_lower_bound i). apply (M H).
Qed.

(** Over [int]: 2 and 5 are members of [2,5]. *)
Lemma closed_interval_nonempty_iff_witness :
  result (bounded_call interval_2_5 2%Z) = true /\
  result (bounded_call interval_2_5 5%Z) = true.
Proof.
  apply (proj2 (closed_interval_nonempty_iff int_OrderLaws interval_2_5)).
  reflexivity.
Defined.

(** X10: an open interval over [int] has a member exactly when its bounds
    are at least two apart; with bounds 2 and 3, in the right order, it has
    none. *)
Theorem open_interval_int_nonempty_iff :
  forall o : open_interval Z,
    (exists u : Z, result (bounded_call o u) = true) <->
    (get_lower_bound o + 1 < get_upper_bound o)%Z.
Proof.
  intros o. split.
  - intros [u Hu]. rewrite open_call_le in Hu.
    cbn [less_than_or_equal int_Comparable] in Hu.
    apply andb_true_iff in Hu. destruct Hu as [H1 H2].
    apply negb_true_iff in H1, H2.
    apply Z.leb_gt in H1, H2. lia.
  - intros H. exists (get_lower_bound o + 1)%Z. rewrite open_call_le.
    cbn [less_than_or_equal int_Comparable].
    apply andb_true_iff. split; apply negb_true_iff; apply Z.leb_gt; lia.
Qed.

(** ** When the constructors of [bounded] are accepted *)

Lemma bounded_ctor_built_inv {T : Type} (Tn U1 U2 : ctype) (LI UI : bool)
    (LC UC : BoundConstant T) (lo hi : T) :
  is_built (bounded_ctor Tn LI UI LC UC U1 U2 lo hi)
  = is_dynamic LC && is_dynamic UC && decay_same Tn U1 && decay_same Tn U2.
Proof.
  destruct LC, UC.
  - destruct (decay_same Tn U1) eqn:E1; destruct (decay_same Tn U2) eqn:E2;
      try (rewrite bounded_ctor_dynamic by assumption; reflexivity);
      unfold bounded_ctor; cbn; rewrite E1, ?E2; reflexivity.
  - rewrite bounded_ctor_mixed by (cbn; congruence). reflexivity.
  - rewrite bounded_ctor_mixed by (cbn; congruence). reflexivity.
  - rewrite bounded_ctor_static. reflexivity.
Qed.

(** X11: the two-argument constructor of [bounded] is accepted only when
    both bounds are dynamic and both argument types decay to [T]; for
    arguments that are not [volatile]-qualified it is accepted exactly
    then.  The interval it builds reports the two arguments as its lower and
    upper bound, in that order. *)
Theorem bounded_ctor_accepts_iff :
  forall (T : Type) (Tn U1 U2 : ctype) (LI UI : bool)
         (LC UC : BoundConstant T) (lo hi : T),
    (is_built (bounded_ctor Tn LI UI LC UC U1 U2 lo hi) = true ->
     is_dynamic LC = true /\ is_dynamic UC = true /\
     decay_same Tn U1 = true /\ decay_same Tn U2 = true) /\
    (bindable U1 = true -> bindable U2 = true ->
     is_dynamic LC = true -> is_dynamic UC = true ->
     decay_same Tn U1 = true -> decay_same Tn U2 = true ->
     is_built (bounded_ctor Tn LI UI LC UC U1 U2 lo hi) = true) /\
    (forall b : bounded LI UI LC UC,
       bounded_ctor Tn LI UI LC UC U1 U2 lo hi = Built b ->
       get_lower_bound b = lo /\ get_upper_bound b = hi).
Proof.
  intros T Tn U1 U2 LI UI LC UC lo hi.
  pose proof (bounded_ctor_built_inv Tn U1 U2 LI UI LC UC lo hi) as E.
  split; [|split].
  - intros H. rewrite H in E. symmetry in E.
    apply andb_true_iff in E. destruct E as [E E2].
    apply andb_true_iff in E. destruct E as [E E1].
    apply andb_true_iff in E. destruct E as [DL DU]. auto.
  - intros _ _ DL DU E1 E2. rewrite E, DL, DU, E1, E2. reflexivity.
  - intros b Hb. rewrite Hb in E. cbn [is_built] in E. symmetry in E.
    apply andb_true_iff in E. destruct E as [E E2].
    apply andb_true_iff in E. destruct E as [E E1].
    apply andb_true_iff in E. destruct E as [DL DU].
    destruct LC; [|discriminate]. destruct UC; [|discriminate].
    rewrite bounded_ctor_dynamic in Hb by assumption.
    injection Hb as Hb. subst b. split; reflexivity.
Qed.

(** Over pointers: [closed_interval<const int*>] built from a
    [const int[3]] lvalue and a [const int*] rvalue. *)
Lemma bounded_ctor_accepts_iff_witness :
  is_built (bounded_ctor (Pointer (Const int)) closed closed
              (@dynamic_bound Z) (@dynamic_bound Z)
              (LRef (Const (Array int 3))) (Pointer (Const int)) 2%Z 5%Z)
  = true.
Proof.
  apply (proj1 (proj2 (bounded_ctor_accepts_iff (Pointer (Const int))
                         (LRef (Const (Array int 3))) (Pointer (Const int))
                         closed closed (@dynamic_bound Z) (@dynamic_bound Z)
                         2%Z 5%Z))); reflexivity.
Defined.

(** X12: the default constructor of [bounded] is accepted exactly when both
    bounds are constants whose [value_type] decays to [T]; the interval then
    reports the constants' values.  When it is refused, the diagnostic is
    never the constructor's own assertion "constructor requires static
    bounds": with a dynamic bound the constructor has already been removed
    by the substitution failure on [value_type], or the class has been
    refused. *)
Theorem bounded_default_accepts_iff :
  forall (T : Type) (Tn : ctype) (LI UI : bool) (LC UC : BoundConstant T),
    (is_built (bounded_default Tn LI UI LC UC) = true <->
     exists (vt1 vt2 : ctype) (k1 k2 : T),
       LC = constant vt1 k1 /\ UC = constant vt2 k2 /\
       decay_same Tn vt1 = true /\ decay_same Tn vt2 = true) /\
    (forall (vt1 vt2 : ctype) (k1 k2 : T),
       decay_same Tn vt1 = true -> decay_same Tn vt2 = true ->
       fmap (fun b => (get_lower_bound b, get_upper_bound b))
            (bounded_default Tn LI UI (constant vt1 k1) (constant vt2 k2))
       = Built (k1, k2)) /\
    (forall d : diagnostic,
       bounded_default Tn LI UI LC UC = Rejected d ->
       names "constructor requires static bounds" d = false).
Proof.
  intros T Tn LI UI LC UC. split; [split|split].
  - destruct LC as [|vt1 k1], UC as [|vt2 k2]; cbn; try discriminate.
    unfold bounded_default. cbn.
    destruct (decay_same Tn vt1) eqn:E1; [|discriminate].
    destruct (decay_same Tn vt2) eqn:E2; [|discriminate].
    intros _. exists vt1, vt2, k1, k2. auto.
  - intros (vt1 & vt2 & k1 & k2 & -> & -> & E1 & E2).
    rewrite bounded_default_static by assumption. reflexivity.
  - intros vt1 vt2 k1 k2 E1 E2.
    rewrite bounded_default_static by assumption. reflexivity.
  - intros d. destruct LC as [|vt1 k1], UC as [|vt2 k2]; cbn;
      try (intros Q; injection Q as <-; reflexivity).
    unfold bounded_default. cbn.
    destruct (decay_same Tn vt1); cbn;
      [|intros Q; injection Q as <-; reflexivity].
    destruct (decay_same Tn vt2); cbn;
      [discriminate|intros Q; injection Q as <-; reflexivity].
Qed.

(** Over [int]: two constants, 2 and 5, whose [value_type] is spelled
    [const int] and [int]. *)
Lemma bounded_default_accepts_iff_witness :
  fmap (fun b => (get_lower_bound b, get_upper_bound b))
       (bounded_default int closed closed (constant (Const int) 2%Z)
                        (integral_constant_int 5))
  = Built (2%Z, 5%Z).
Proof.
  apply (proj1 (proj2 (bounded_default_accepts_iff int closed closed
                         (constant (Const int) 2%Z)
                         (integral_constant_int 5)))
           (Const int) int 2%Z 5%Z); reflexivity.
Defined.



(** ** When the factories are accepted *)

Section FactoryFacts.

Context {V : Type}.
Variable bounded_type : bool -> bool -> Type.
Variable bounded_type_ctor : forall LI UI : bool,
  V -> bounded LI UI (@dynamic_bound V) (@dynamic_bound V) -> bounded_type LI UI.
Variable clamped_type : Type.
Variable clamped_type_ctor : V -> closed_interval V -> clamped_type.

Lemma bounded_value_type_rejected (T U1 U2 : ctype) :
  ~ (decay T = decay U1 /\ decay U1 = decay U2) ->
  exists d : diagnostic, bounded_value_type T U1 U2 = Rejected d.
Proof.
  intros N. rewrite (bounded_value_type_mismatch _ _ _ N).
  destruct (is_same (decay T) (decay U1) || is_same (decay U1) (decay U2));
    eexists; reflexivity.
Qed.

Lemma bounded_value_type_same (T U1 U2 : ctype) :
  decay T = decay U1 -> decay U1 = decay U2 ->
  bounded_value_type T U1 U2 = Built (decay T).
Proof.
  intros E1 E2. apply bounded_value_type_built. repeat split; congruence.
Qed.

Lemma make_bounded_same (T U1 U2 : ctype) (value lo hi : V) :
  decay T = decay U1 -> decay U1 = decay U2 ->
  make_bounded bounded_type bounded_type_ctor T U1 U2 value lo hi
  = Built (bounded_type_ctor value
             {| lower := Build_Name _ dynamic_bound {| Wrapper_value := lo |};
                upper := Build_Name _ dynamic_bound {| Wrapper_value := hi |}
             |}).
Proof.
  intros E1 E2. unfold make_bounded.
  rewrite (bounded_value_type_same _ _ _ E1 E2). cbn [bind build_Monad].
  rewrite bounded_ctor_dynamic; [reflexivity| |];
    unfold decay_same; apply is_same_true; congruence.
Qed.

Lemma make_bounded_exclusive_same (T U1 U2 : ctype) (value lo hi : V) :
  decay T = decay U1 -> decay U1 = decay U2 ->
  make_bounded_exclusive bounded_type bounded_type_ctor T U1 U2 value lo hi
  = Built (bounded_type_ctor value
             {| lower := Build_Name _ dynamic_bound {| Wrapper_value := lo |};
                upper := Build_Name _ dynamic_bound {| Wrapper_value := hi |}
             |}).
Proof.
  intros E1 E2. unfold make_bounded_exclusive.
  rewrite (bounded_value_type_same _ _ _ E1 E2). cbn [bind build_Monad].
  rewrite bounded_ctor_dynamic; [reflexivity| |];
    unfold decay_same; apply is_same_true; congruence.
Qed.

Lemma make_clamped_same (T U1 U2 : ctype) (value lo hi : V) :
  decay T = decay U1 -> decay U1 = decay U2 ->
  make_clamped clamped_type_ctor T U1 U2 value lo hi
  = Built (clamped_type_ctor value
             {| lower := Build_Name _ dynamic_bound {| Wrapper_value := lo |};
                upper := Build_Name _ dynamic_bound {| Wrapper_value := hi |}
             |}).
Proof.
  intros E1 E2. unfold make_clamped.
  rewrite (bounded_value_type_same _ _ _ E1 E2). cbn [bind build_Monad].
  rewrite bounded_ctor_dynamic; [reflexivity| |];
    unfold decay_same; apply is_same_true; congruence.
Qed.

End FactoryFacts.

(** X14: each of [make_bounded], [make_bounded_exclusive] and
    [make_clamped] is refused at build time unless the types of its three
    arguments decay to one type, whatever the values passed; when they do
    and the two bounds are not [volatile]-qualified, the header accepts the
    call. *)
Theorem factories_accept_iff :
  forall (V : Type) (bounded_type : bool -> bool -> Type)
         (bounded_type_ctor : forall LI UI : bool,
            V -> bounded LI UI (@dynamic_bound V) (@dynamic_bound V) ->
            bounded_type LI UI)
         (clamped_type : Type)
         (clamped_type_ctor : V -> closed_interval V -> clamped_type)
         (T U1 U2 : ctype) (value lo hi : V),
    (is_built (make_bounded bounded_type bounded_type_ctor T U1 U2
                            value lo hi) = true \/
     is_built (make_bounded_exclusive bounded_type bounded_type_ctor T U1 U2
                                      value lo hi) = true \/
     is_built (make_clamped clamped_type_ctor T U1 U2 value lo hi) = true ->
     decay T = decay U1 /\ decay U1 = decay U2) /\
    (bindable U1 = true -> bindable U2 = true ->
     decay T = decay U1 -> decay U1 = decay U2 ->
     is_built (make_bounded bounded_type bounded_type_ctor T U1 U2
                            value lo hi) = true /\
     is_built (make_bounded_exclusive bounded_type bounded_type_ctor T U1 U2
                                      value lo hi) = true /\
     is_built (make_clamped clamped_type_ctor T U1 U2 value lo hi) = true).
Proof.
  intros V bt btc ct ctc T U1 U2 value lo hi. split.
  - intros H.
    destruct (ctype_eq_dec (decay T) (decay U1)) as [E1|N1];
      [destruct (ctype_eq_dec (decay U1) (decay U2)) as [E2|N2]|];
      [split; assumption| |].
    + assert (N : ~ (decay T = decay U1 /\ decay U1 = decay U2)) by tauto.
      destruct (bounded_value_type_rejected T U1 U2 N) as [d Hd].
      unfold make_bounded, make_bounded_exclusive, make_clamped in H.
      rewrite Hd in H. cbn in H. destruct H as [H|[H|H]]; discriminate.
    + assert (N : ~ (decay T = decay U1 /\ decay U1 = decay U2)) by tauto.
      destruct (bounded_value_type_rejected T U1 U2 N) as [d Hd].
      unfold make_bounded, make_bounded_exclusive, make_clamped in H.
      rewrite Hd in H. cbn in H. destruct H as [H|[H|H]]; discriminate.
  - intros _ _ E1 E2.
    rewrite (make_bounded_same bt btc _ _ _ value lo hi E1 E2).
    rewrite (make_bounded_exclusive_same bt btc _ _ _ value lo hi E1 E2).
    rewrite (make_clamped_same ctc _ _ _ value lo hi E1 E2).
    repeat split.
Qed.

(** With a pair as the wrapper: the factories called with a [const int[3]]
    lvalue and two [const int*] rvalues, which all decay to
    [const int*]. *)
Lemma factories_accept_iff_witness :
  is_built (make_bounded
              (fun LI UI =>
                 (Z * bounded LI UI dynamic_bound dynamic_bound)%type)
              (fun LI UI v b => (v, b))
              (LRef (Const (Array int 3))) (Pointer (Const int))
              (Pointer (Const int)) 1%Z 0%Z 2%Z) = true /\
  is_built (make_bounded_exclusive
              (fun LI UI =>
                 (Z * bounded LI UI dynamic_bound dynamic_bound)%type)
              (fun LI UI v b => (v, b))
              (LRef (Const (Array int 3))) (Pointer (Const int))
              (Pointer (Const int)) 1%Z 0%Z 2%Z) = true /\
  is_built (make_clamped (fun v b => (v, b))
              (LRef (Const (Array int 3))) (Pointer (Const int))
              (Pointer (Const int)) 1%Z 0%Z 2%Z) = true.
Proof.
  apply (proj2 (@factories_accept_iff Z
                  (fun LI UI =>
                     (Z * bounded LI UI dynamic_bound dynamic_bound)%type)
                  (fun LI UI v b => (v, b)) _ (fun v b => (v, b))
                  (LRef (Const (Array int 3))) (Pointer (Const int))
                  (Pointer (Const int)) 1%Z 0%Z 2%Z)); reflexivity.
Defined.

(** X15: when the three argument types decay to one type and the two
    bounds are not [volatile]-qualified, each factory hands the wrapper's
    constructor the value as given and an interval whose lower and upper
    bound are the second and third argument, in that order: closed for
    [make_bounded] and [make_clamped], open for [make_bounded_exclusive]. *)
Theorem factories_pass_arguments :
  forall (V : Type) (bounded_type : bool -> bool -> Type)
         (bounded_type_ctor : forall LI UI : bool,
            V -> bounded LI UI (@dynamic_bound V) (@dynamic_bound V) ->
            bounded_type LI UI)
         (clamped_type : Type)
         (clamped_type_ctor : V -> closed_interval V -> clamped_type)
         (T U1 U2 : ctype) (value lo hi : V),
    bindable U1 = true -> bindable U2 = true ->
    decay T = decay U1 -> decay U1 = decay U2 ->
    exists (c : closed_interval V) (o : open_interval V),
      get_lower_bound c = lo /\ get_upper_bound c = hi /\
      get_lower_bound o = lo /\ get_upper_bound o = hi /\
      make_bounded bounded_type bounded_type_ctor T U1 U2 value lo hi
        = Built (bounded_type_ctor closed closed value c) /\
      make_bounded_exclusive bounded_type bounded_type_ctor T U1 U2
                             value lo hi
        = Built (bounded_type_ctor open open value o) /\
      make_clamped clamped_type_ctor T U1 U2 value lo hi
        = Built (clamped_type_ctor value c).
Proof.
  intros V bt btc ct ctc T U1 U2 value lo hi _ _ E1 E2.
  eexists. eexists.
  split; [|split; [|split; [|split; [|split; [|split]]]]].
  5: apply (make_bounded_same bt btc _ _ _ value lo hi E1 E2).
  5: apply (make_bounded_exclusive_same bt btc _ _ _ value lo hi E1 E2).
  5: apply (make_clamped_same ctc _ _ _ value lo hi E1 E2).
  all: reflexivity.
Qed.

(** With a pair as the wrapper: [make_clamped(6, 1, 5)] called with an
    [int] lvalue, a [const int&] and an [int] rvalue. *)
Lemma factories_pass_arguments_witness :
  exists (c : closed_interval Z) (o : open_interval Z),
    get_lower_bound c = 1%Z /\ get_upper_bound c = 5%Z /\
    get_lower_bound o = 1%Z /\ get_upper_bound o = 5%Z /\
    make_bounded (fun LI UI => (Z * bounded LI UI dynamic_bound dynamic_bound)%type)
                 (fun LI UI v b => (v, b))
                 (LRef int) (LRef (Const int)) int 6%Z 1%Z 5%Z
      = Built (6%Z, c) /\
    make_bounded_exclusive
                 (fun LI UI => (Z * bounded LI UI dynamic_bound dynamic_bound)%type)
                 (fun LI UI v b => (v, b))
                 (LRef int) (LRef (Const int)) int 6%Z 1%Z 5%Z
      = Built (6%Z, o) /\
    make_clamped (fun v b => (v, b))
                 (LRef int) (LRef (Const int)) int 6%Z 1%Z 5%Z
      = Built (6%Z, c).
Proof.
  apply (@factories_pass_arguments Z
           (fun LI UI => (Z * bounded LI UI dynamic_bound dynamic_bound)%type)
           (fun LI UI v b => (v, b)) _ (fun v b => (v, b))
           (LRef int) (LRef (Const int)) int 6%Z 1%Z 5%Z); reflexivity.
Defined.

(** ** [clamp] on a value of another type than the bounds *)

(** X16: [clamp] takes the value in a type [U] of its own.  If the operators
    of [T] are lawful, the operators between [U] and [T] are each other's
    complements, and [static_cast<U>] of a bound compares against every
    bound the way the bound itself does, then for bounds with lower <= upper
    the interval's test holds on the value after [clamp]. *)
Theorem clamp_valid_across_types :
  forall (T U : Type) (CT : Comparable T T) (L : OrderLaws CT)
         (CU : Comparable U T) (S : StaticCast T U)
         (i : closed_interval T) (v : U),
    (forall (o : Op) (t t' : T),
       apply_Op o (static_cast t : U) t' = apply_Op o t t') ->
    (forall (u : U) (t : T),
       greater_than_or_equal u t = negb (less_than u t)) ->
    (forall (u : U) (t : T),
       less_than_or_equal u t = negb (greater_than u t)) ->
    less_than_or_equal (get_lower_bound i) (get_upper_bound i) = true ->
    result (bounded_call i (result (clamp i v))) = true.
Proof.
  intros T U CT L CU S i v Hcast Hge Hle H.
  rewrite bounded_call_result, clamp_unfold. cbn [closed].
  destruct (less_than v (get_lower_bound i)) eqn:E1;
    [|destruct (greater_than v (get_upper_bound i)) eqn:E2];
    unfold result; cbn [fst].
  - rewrite !Hcast. cbn [apply_Op]. rewrite ge_le, le_refl, H. reflexivity.
  - rewrite !Hcast. cbn [apply_Op]. rewrite ge_le, le_refl, H. reflexivity.
  - cbn [apply_Op]. rewrite Hge, Hle, E1, E2. reflexivity.
Qed.

(** With a [long long] value and [unsigned int] bounds: -3 clamped to
    [2,5] becomes 2 converted to [long long]. *)
Lemma clamp_valid_across_types_witness :
  clamp unsigned_interval_2_5 (-3)%Z
    = (2%Z, [Compared Op_lt (-3)%Z 2%N; Assigned 2%Z]) /\
  result (bounded_call unsigned_interval_2_5
            (result (clamp unsigned_interval_2_5 (-3)%Z))) = true.
Proof.
  split; [reflexivity|].
  apply (@clamp_valid_across_types N Z unsigned_Comparable unsigned_OrderLaws
           long_long_unsigned_Comparable unsigned_long_long_StaticCast
           unsigned_interval_2_5 (-3)%Z).
  - intros o t t'. destruct o; cbn.
    + destruct (Z.ltb_spec (Z.of_N t) (Z.of_N t'));
        destruct (N.ltb_spec t t'); try reflexivity; lia.
    + destruct (Z.leb_spec (Z.of_N t) (Z.of_N t'));
        destruct (N.leb_spec t t'); try reflexivity; lia.
    + rewrite Z.gtb_ltb.
      destruct (Z.ltb_spec (Z.of_N t') (Z.of_N t));
        destruct (N.ltb_spec t' t); try reflexivity; lia.
    + rewrite Z.geb_leb.
      destruct (Z.leb_spec (Z.of_N t') (Z.of_N t));
        destruct (N.leb_spec t' t); try reflexivity; lia.
  - intros u t. cbn. rewrite Z.geb_leb. apply Z.leb_antisym.
  - intros u t. cbn. rewrite Z.gtb_ltb. apply Z.leb_antisym.
  - reflexivity.
Defined.

(** X17: the conversion matters.  For an [unsigned char] value and an
    interval of [int] bounds whose lower bound is 256 or more, [clamp]
    assigns the lower bound reduced modulo 256, and the interval's test
    fails on the value afterwards, although lower <= upper. *)
Theorem clamp_unsigned_char_out_of_range :
  forall (i : closed_interval Z) (v : Z),
    (0 <= v < 256)%Z ->
    (256 <= get_lower_bound i)%Z ->
    (get_lower_bound i <= get_upper_bound i)%Z ->
    let r := @clamp Z Z int_Comparable unsigned_char_StaticCast i v in
    result r = (get_lower_bound i mod 256)%Z /\
    assignments r = 1%nat /\
    result (bounded_call i (result r)) = false.
Proof.
  intros i v Hv Hlo H r.
  assert (E : (v <? get_lower_bound i)%Z = true) by (apply Z.ltb_lt; lia).
  assert (R : r = ((get_lower_bound i mod 256)%Z,
                   [Compared Op_lt v (get_lower_bound i);
                    Assigned (get_lower_bound i mod 256)%Z])).
  { subst r. rewrite clamp_unfold. cbn [less_than int_Comparable].
    rewrite E. reflexivity. }
  rewrite R. split; [reflexivity|]. split; [reflexivity|].
  change (result ((get_lower_bound i mod 256)%Z,
                  [Compared Op_lt v (get_lower_bound i);
                   Assigned (get_lower_bound i mod 256)%Z]))
    with (get_lower_bound i mod 256)%Z.
  rewrite closed_call_le. cbn [less_than_or_equal int_Comparable].
  apply andb_false_iff. left. apply Z.leb_gt.
  pose proof (Z.mod_pos_bound (get_lower_bound i) 256). lia.
Qed.

(** An [unsigned char] 5 clamped to [300,1000] becomes 44. *)
Lemma clamp_unsigned_char_out_of_range_witness :
  result (@clamp Z Z int_Comparable unsigned_char_StaticCast
            interval_300_1000 5%Z) = 44%Z /\
  assignments (@clamp Z Z int_Comparable unsigned_char_StaticCast
                 interval_300_1000 5%Z) = 1%nat /\
  result (bounded_call interval_300_1000
            (result (@clamp Z Z int_Comparable unsigned_char_StaticCast
                       interval_300_1000 5%Z))) = false.
Proof.
  apply (@clamp_unsigned_char_out_of_range interval_300_1000 5%Z);
    cbn; lia.
Defined.

(** ** [clamp] on inverted bounds *)

(** X18: over lawful operators and bounds with lower > upper, [clamp] never
    settles: it sends a value below the lower bound to the lower bound and
    every other value to the upper bound, so clamping the outcome again
    assigns once more and yields the other bound. *)
Theorem clamp_inverted_alternates :
  forall (T : Type) (C : Comparable T T) (L : OrderLaws C)
         (i : closed_interval T) (v : T),
    greater_than (get_lower_bound i) (get_upper_bound i) = true ->
    result (clamp i v)
      = (if less_than v (get_lower_bound i) then get_lower_bound i
         else get_upper_bound i) /\
    result (clamp i (result (clamp i v)))
      = (if less_than v (get_lower_bound i) then get_upper_bound i
         else get_lower_bound i) /\
    assignments (clamp i (result (clamp i v))) = 1%nat.
Proof.
  intros T C L i v H.
  assert (N : forall u : T, result (bounded_call i u) = false)
    by (intros u; apply closed_empty_when_inverted; exact H).
  rewrite gt_le in H. apply negb_true_iff in H.
  pose proof (le_total _ _ H) as H'.
  assert (R : result (clamp i v)
              = if less_than v (get_lower_bound i) then get_lower_bound i
                else get_upper_bound i).
  { rewrite clamp_result_le, lt_le.
    destruct (less_than_or_equal (get_lower_bound i) v) eqn:E1;
      [|reflexivity].
    destruct (less_than_or_equal v (get_upper_bound i)) eqn:E2;
      [|reflexivity].
    rewrite (le_trans _ _ _ E1 E2) in H. discriminate. }
  split; [exact R|]. split; [|apply clamp_nonmember; apply N].
  rewrite R, clamp_result_le.
  destruct (less_than v (get_lower_bound i)).
  - rewrite le_refl, H. reflexivity.
  - rewrite H. reflexivity.
Qed.

(** Over [int]: 3 clamped to the inverted bounds 5 and 2 gives 5, then 2. *)
Lemma clamp_inverted_alternates_witness :
  result (clamp interval_5_2 3%Z) = 5%Z /\
  result (clamp interval_5_2 (result (clamp interval_5_2 3%Z))) = 2%Z /\
  assignments (clamp interval_5_2 (result (clamp interval_5_2 3%Z))) = 1%nat.
Proof.
  apply (clamp_inverted_alternates int_OrderLaws interval_5_2 3%Z).
  reflexivity.
Defined.

(** ** [clamp] on a value no comparison holds for *)

(** X19: a value on which each of the four operators answers [false]
    against every bound, as a NaN does, goes through [clamp] untouched:
    both comparisons are evaluated, nothing is assigned, and the interval's
    test fails on it before and after, whatever the bounds. *)
Theorem clamp_keeps_unordered_value :
  forall (T U : Type) (C : Comparable U T) (S : StaticCast T U)
         (i : closed_interval T) (nan : U),
    (forall (o : Op) (t : T), apply_Op o nan t = false) ->
    clamp i nan
      = (nan, [Compared Op_lt nan (get_lower_bound i);
               Compared Op_gt nan (get_upper_bound i)]) /\
    result (bounded_call i (result (clamp i nan))) = false.
Proof.
  intros T U C S i nan H.
  assert (E : clamp i nan
              = (nan, [Compared Op_lt nan (get_lower_bound i);
                       Compared Op_gt nan (get_upper_bound i)])).
  { rewrite clamp_unfold.
    rewrite (H Op_lt (get_lower_bound i) : less_than _ _ = false).
    rewrite (H Op_gt (get_upper_bound i) : greater_than _ _ = false).
    reflexivity. }
  split; [exact E|].
  rewrite E. unfold result at 2. cbn [fst].
  rewrite bounded_call_result, H. reflexivity.
Qed.

(** Over numbers with an unordered value, and the interval [2,5]. *)
Lemma clamp_keeps_unordered_value_witness :
  clamp partial_interval_2_5 unordered
    = (unordered, [Compared Op_lt unordered (ordered 2);
                   Compared Op_gt unordered (ordered 5)]) /\
  result (bounded_call partial_interval_2_5
            (result (clamp partial_interval_2_5 unordered))) = false.
Proof.
  apply (@clamp_keeps_unordered_value partial partial partial_Comparable
           (same_StaticCast partial) partial_interval_2_5 unordered).
  intros o t. destruct o; reflexivity.
Defined.
